(** * zsh.h: the declarations handed to the binding generator

    [src/zsh.h] is a header: preprocessor directives, type aliases, struct
    layouts, variables and function declarations.  It is embedded here as
    the list of its top-level items, in source order, over a small syntax of
    C declarations.  Preprocessing, typedef resolution, linkage and the
    evaluation of constant initialisers are functions over that syntax. *)

From Stdlib Require Import ZArith List String Bool Lia.
Import ListNotations.

Local Open Scope string_scope.
Local Open Scope list_scope.
Local Open Scope Z_scope.

(** ** Syntax of the C fragment *)

Module C.

(** Types.  [size_t] and [uint32_t] come from the system headers the file
    includes and are kept as base types. *)
Inductive ctype : Type :=
| Tvoid
| Tchar
| Tuchar
| Tint
| Tlong
| Tsize_t
| Tuint32_t
| Tnamed (name : string)
| Tstruct (tag : string)
| Tptr (t : ctype).

(** Expressions, as far as initialisers and statements need them. *)
Inductive expr : Type :=
| Enum (n : Z)
| Enull
| Evar (x : string)
| Ecast (t : ctype) (e : expr).

(** Statements: what a function body would be made of. *)
Inductive stmt : Type :=
| Sskip
| Sexpr (e : expr)
| Sassign (x : string) (e : expr)
| Sseq (s1 s2 : stmt)
| Sif (c : expr) (s1 s2 : stmt)
| Swhile (c : expr) (s : stmt)
| Sreturn (e : option expr).

Inductive storage : Type :=
| Auto      (* no storage-class specifier written *)
| Static
| Extern.

(** A struct member with the comment the source attaches to it. *)
Record field : Type := fld {
  f_type : ctype;
  f_name : string;
  f_doc  : string
}.

(** A member line, or members guarded by [#ifdef macro ... #endif]. *)
Inductive member : Type :=
| Mfield (f : field)
| Mifdef (macro : string) (fs : list field).

Record param : Type := prm {
  p_type : ctype;
  p_name : string
}.

(** [f()], [f(void)] and [f(T x, ...)]. *)
Inductive params : Type :=
| Punspec
| Pvoid
| Plist (ps : list param).

(** One declarator of a variable declaration with its initialiser. *)
Definition declarator : Type := (string * option expr)%type.

(** Top-level declarations.  [Dempty] is a declaration made of
    specifiers only, such as [static;].  A [Dfun] with a body is a
    function definition. *)
Inductive decl : Type :=
| Dempty (sc : storage)
| Dtypedef (t : ctype) (name : string)
| Dstruct (tag : string) (ms : list member)
| Dvar (sc : storage) (t : ctype) (ds : list declarator)
| Dfun (sc : storage) (ret : ctype) (name : string) (ps : params)
       (body : option stmt).

(** Items of a source file before preprocessing.  A macro's replacement
    list is kept as the declarations it spells; [Idecl marks d] is the
    declaration [d] written after the macro names [marks]. *)
Inductive item : Type :=
| Idefine (name : string) (body : list decl)
| Iinclude (header : string)
| Idecl (marks : list string) (d : decl).

Inductive kind : Type :=
| Kempty
| Ktypedef
| Kstruct
| Kvariable
| Kprototype
| Kdefinition.

Definition kind_of (d : decl) : kind :=
  match d with
  | Dempty _ => Kempty
  | Dtypedef _ _ => Ktypedef
  | Dstruct _ _ => Kstruct
  | Dvar _ _ _ => Kvariable
  | Dfun _ _ _ _ None => Kprototype
  | Dfun _ _ _ _ (Some _) => Kdefinition
  end.

(** The four kinds of declaration a pure header is made of. *)
Definition header_kind (k : kind) : bool :=
  match k with
  | Ktypedef | Kstruct | Kvariable | Kprototype => true
  | Kempty | Kdefinition => false
  end.

Definition body_of (d : decl) : option stmt :=
  match d with
  | Dfun _ _ _ _ b => b
  | _ => None
  end.

(** *** Statements: what they assign, where they branch, what they return *)

Fixpoint assigned (s : stmt) : list string :=
  match s with
  | Sassign x _ => [x]
  | Sseq a b => assigned a ++ assigned b
  | Sif _ a b => assigned a ++ assigned b
  | Swhile _ a => assigned a
  | Sskip | Sexpr _ | Sreturn _ => []
  end.

Fixpoint branches (s : stmt) : nat :=
  match s with
  | Sif _ a b => S (branches a + branches b)
  | Swhile _ a => S (branches a)
  | Sseq a b => (branches a + branches b)%nat
  | Sskip | Sexpr _ | Sassign _ _ | Sreturn _ => 0%nat
  end.

Fixpoint returned (s : stmt) : list expr :=
  match s with
  | Sreturn (Some e) => [e]
  | Sseq a b => returned a ++ returned b
  | Sif _ a b => returned a ++ returned b
  | Swhile _ a => returned a
  | Sskip | Sexpr _ | Sassign _ _ | Sreturn None => []
  end.

Definition statements (ds : list decl) : list stmt :=
  flat_map (fun d => match body_of d with Some s => [s] | None => [] end) ds.

(** The variables some function body of the unit assigns to. *)
Definition modified (ds : list decl) : list string :=
  flat_map assigned (statements ds).

(** *** Preprocessing *)

Definition macros : Type := list (string * list decl).

Fixpoint lookup {A : Type} (x : string) (l : list (string * A)) : option A :=
  match l with
  | [] => None
  | (y, a) :: l' => if String.eqb x y then Some a else lookup x l'
  end.

Section Preprocess.

(** The macros defined before the file is read (compiler flags).  Only
    [#ifdef] asks for them: they are names without replacement text, and
    the identifiers the file itself is written with are taken not to be
    among them. *)
Variable defined : string -> bool.

Definition is_defined (env : macros) (x : string) : bool :=
  match lookup x env with
  | Some _ => true
  | None => defined x
  end.

Definition cpp_member (env : macros) (m : member) : list member :=
  match m with
  | Mfield f => [Mfield f]
  | Mifdef x fs => if is_defined env x then map Mfield fs else []
  end.

Definition cpp_decl (env : macros) (d : decl) : decl :=
  match d with
  | Dstruct tag ms => Dstruct tag (flat_map (cpp_member env) ms)
  | _ => d
  end.

(** Each macro name in front of a declaration is replaced by the
    declarations of its replacement list; a name that is no macro is
    an error. *)
Fixpoint expand (env : macros) (marks : list string)
  : option (list decl) :=
  match marks with
  | [] => Some []
  | m :: ms =>
      match lookup m env, expand env ms with
      | Some body, Some rest => Some (body ++ rest)
      | _, _ => None
      end
  end.

Fixpoint preprocess_from (env : macros) (its : list item)
  : option (list decl) :=
  match its with
  | [] => Some []
  | Idefine x body :: its' => preprocess_from ((x, body) :: env) its'
  | Iinclude _ :: its' => preprocess_from env its'
  | Idecl marks d :: its' =>
      match expand env marks, preprocess_from env its' with
      | Some pre, Some rest => Some (pre ++ cpp_decl env d :: rest)
      | _, _ => None
      end
  end.

Definition preprocess (its : list item) : option (list decl) :=
  preprocess_from [] its.

End Preprocess.

(** *** Names, typedefs and structs of a translation unit *)

Definition declared_vars (d : decl) : list string :=
  match d with
  | Dvar _ _ ds => map fst ds
  | _ => []
  end.

Definition declared_funs (d : decl) : list string :=
  match d with
  | Dfun _ _ f _ _ => [f]
  | _ => []
  end.

Definition functions (ds : list decl) : list string :=
  flat_map declared_funs ds.

Fixpoint fields_of (ms : list member) : list field :=
  match ms with
  | [] => []
  | Mfield f :: ms' => f :: fields_of ms'
  | Mifdef _ _ :: ms' => fields_of ms'
  end.

Fixpoint find_struct (tag : string) (ds : list decl)
  : option (list field) :=
  match ds with
  | [] => None
  | Dstruct t ms :: ds' =>
      if String.eqb tag t then Some (fields_of ms) else find_struct tag ds'
  | _ :: ds' => find_struct tag ds'
  end.

Fixpoint find_field (x : string) (fs : list field) : option field :=
  match fs with
  | [] => None
  | f :: fs' => if String.eqb x (f_name f) then Some f else find_field x fs'
  end.

(** Replace typedef names by what they stand for in [env]. *)
Fixpoint unfold_type (env : list (string * ctype)) (t : ctype)
  : option ctype :=
  match t with
  | Tnamed x => lookup x env
  | Tptr t' => option_map Tptr (unfold_type env t')
  | _ => Some t
  end.

(** The typedef names of a unit with the types they denote.  A typedef
    may only mention names declared before it, so each one is unfolded in
    the environment built so far; the latest declaration of a name comes
    first. *)
Fixpoint typedefs_from (env : list (string * ctype)) (ds : list decl)
  : list (string * ctype) :=
  match ds with
  | [] => env
  | Dtypedef t x :: ds' =>
      match unfold_type env t with
      | Some r => typedefs_from ((x, r) :: env) ds'
      | None => typedefs_from env ds'
      end
  | _ :: ds' => typedefs_from env ds'
  end.

Definition resolve_in (ds : list decl) (t : ctype) : option ctype :=
  unfold_type (typedefs_from [] ds) t.

(** The resolved type of member [x] of [struct tag]. *)
Definition member_type (ds : list decl) (tag x : string) : option ctype :=
  match find_struct tag ds with
  | Some fs =>
      match find_field x fs with
      | Some f => resolve_in ds (f_type f)
      | None => None
      end
  | None => None
  end.

Definition member_names (ds : list decl) (tag : string) : list string :=
  match find_struct tag ds with
  | Some fs => map f_name fs
  | None => []
  end.

Definition is_pointer (t : ctype) : bool :=
  match t with
  | Tptr _ => true
  | _ => false
  end.


(** *** Linkage of file-scope identifiers (C11 6.2.2) *)

Inductive linkage : Type :=
| External
| Internal.

(** [prior] is the linkage of a declaration of the same identifier that
    is already visible.  [static] gives internal linkage; [extern], and a
    function written without a storage class, take the prior linkage or
    else external; an object without a storage class is external. *)
Definition link (prior : option linkage) (sc : storage) (is_fun : bool)
  : linkage :=
  match sc with
  | Static => Internal
  | Extern => match prior with Some l => l | None => External end
  | Auto =>
      if is_fun
      then match prior with Some l => l | None => External end
      else External
  end.

Fixpoint linkage_from (prior : option linkage) (x : string)
                      (ds : list decl) : option linkage :=
  match ds with
  | [] => prior
  | Dfun sc _ f _ _ :: ds' =>
      if String.eqb x f
      then linkage_from (Some (link prior sc true)) x ds'
      else linkage_from prior x ds'
  | Dvar sc _ vs :: ds' =>
      if existsb (String.eqb x) (map fst vs)
      then linkage_from (Some (link prior sc false)) x ds'
      else linkage_from prior x ds'
  | _ :: ds' => linkage_from prior x ds'
  end.

Definition linkage_of (ds : list decl) (x : string) : option linkage :=
  linkage_from None x ds.

(** The declarations of function [f] in the unit. *)
Definition fun_decls (ds : list decl) (f : string) : list decl :=
  filter (fun d => existsb (String.eqb f) (declared_funs d)) ds.

(** *** Constant initialisers *)

Inductive val : Type :=
| Vint (n : Z)
| Vnull.

(** What the C standard leaves to the implementation. *)
Record abi : Type := {
  char_signed : bool;
  long_bits   : Z;
  size_bits   : Z
}.

Definition wrap_unsigned (bits n : Z) : Z := n mod 2 ^ bits.

Definition wrap_signed (bits n : Z) : Z :=
  let m := n mod 2 ^ bits in
  if m <? 2 ^ (bits - 1) then m else m - 2 ^ bits.

(** Signedness and width of the integer types. *)
Definition int_shape (a : abi) (t : ctype) : option (bool * Z) :=
  match t with
  | Tchar => Some (char_signed a, 8)
  | Tuchar => Some (false, 8)
  | Tint => Some (true, 32)
  | Tlong => Some (true, long_bits a)
  | Tsize_t => Some (false, size_bits a)
  | Tuint32_t => Some (false, 32)
  | _ => None
  end.

(** Conversion of a value to type [t]: integers are reduced to the
    range of [t]; a null pointer constant converts to the null pointer. *)
Definition convert (a : abi) (t : ctype) (v : val) : option val :=
  match int_shape a t, v with
  | Some (true, w), Vint n => Some (Vint (wrap_signed w n))
  | Some (false, w), Vint n => Some (Vint (wrap_unsigned w n))
  | Some _, Vnull => None
  | None, _ =>
      match t, v with
      | Tptr _, Vnull => Some Vnull
      | Tptr _, Vint 0 => Some Vnull
      | _, _ => None
      end
  end.

Fixpoint eval (a : abi) (e : expr) : option val :=
  match e with
  | Enum n => Some (Vint n)
  | Enull => Some Vnull
  | Ecast t e' =>
      match eval a e' with
      | Some v => convert a t v
      | None => None
      end
  | Evar _ => None
  end.

(** The declaration that introduces variable [x]: its storage class,
    declared type and initialiser. *)
Fixpoint find_var (x : string) (ds : list decl)
  : option (storage * ctype * option expr) :=
  match ds with
  | [] => None
  | Dvar sc t vs :: ds' =>
      match lookup x vs with
      | Some i => Some (sc, t, i)
      | None => find_var x ds'
      end
  | _ :: ds' => find_var x ds'
  end.

(** The value a variable holds once its initialiser has been converted
    to its declared type. *)
Definition initial_value (a : abi) (ds : list decl) (x : string)
  : option val :=
  match find_var x ds with
  | Some (_, t, Some e) =>
      match resolve_in ds t, eval a e with
      | Some t', Some v => convert a t' v
      | _, _ => None
      end
  | _ => None
  end.

(** Variables declared with an initialiser, with their resolved type. *)
Definition initialised (ds : list decl) : list (string * option ctype) :=
  flat_map (fun d => match d with
                     | Dvar _ t vs =>
                         flat_map (fun v => match snd v with
                                            | Some _ => [(fst v, resolve_in ds t)]
                                            | None => []
                                            end) vs
                     | _ => []
                     end) ds.

End C.

Import C.

(** ** The header, item by item *)

Definition char_p : ctype := Tptr Tchar.
Definition int_p : ctype := Tptr Tint.

Definition cmatch_members : list member :=
  [ Mfield (fld char_p "str" "the match itself");
    Mfield (fld char_p "orig" "the match string unquoted");
    Mfield (fld char_p "ipre" "ignored prefix, has to be re-inserted");
    Mfield (fld char_p "ripre" "ignored prefix, unquoted");
    Mfield (fld char_p "isuf" "ignored suffix");
    Mfield (fld char_p "ppre" "the path prefix");
    Mfield (fld char_p "psuf" "the path suffix");
    Mfield (fld char_p "prpre" "path prefix for opendir");
    Mfield (fld char_p "pre" "prefix string from -P");
    Mfield (fld char_p "suf" "suffix string from -S");
    Mfield (fld char_p "disp" "string to display (compadd -d)");
    Mfield (fld char_p "autoq" "closing quote to add automatically");
    Mfield (fld Tint "flags" "see CMF_* below");
    Mfield (fld int_p "brpl" "places where to put the brace prefixes");
    Mfield (fld int_p "brsl" "...and the suffixes");
    Mfield (fld char_p "rems" "when to remove the suffix");
    Mfield (fld char_p "remf" "shell function to call for suffix-removal");
    Mfield (fld Tint "qipl" "length of quote-prefix");
    Mfield (fld Tint "qisl" "length of quote-suffix");
    Mfield (fld Tint "rnum" "group relative number");
    Mfield (fld Tint "gnum" "global number");
    Mfield (fld (Tnamed "mode_t") "mode" "mode field of a stat");
    Mfield (fld Tchar "modec" "LIST_TYPE-character for mode or nul");
    Mfield (fld (Tnamed "mode_t") "fmode"
                "mode field of a stat, following symlink");
    Mfield (fld Tchar "fmodec" "LIST_TYPE-character for fmode or nul") ].

Definition cmgroup_members : list member :=
  [ Mfield (fld char_p "name" "the name of this group");
    Mfield (fld (Tnamed "Cmgroup") "prev" "previous on the list");
    Mfield (fld (Tnamed "Cmgroup") "next" "next one in list");
    Mfield (fld Tint "flags" "see CGF_* below");
    Mfield (fld Tint "mcount" "number of matches");
    Mfield (fld (Tptr (Tnamed "Cmatch")) "matches" "the matches");
    Mfield (fld Tint "lcount" "number of things to list here");
    Mfield (fld Tint "llcount" "number of line-displays");
    Mfield (fld (Tptr char_p) "ylist" "things to list");
    Mfield (fld Tint "ecount" "number of explanation string");
    Mfield (fld (Tptr (Tnamed "Cexpl")) "expls" "explanation strings");
    Mfield (fld Tint "ccount" "number of compctls used");
    Mfield (fld (Tnamed "LinkList") "lexpls"
                "list of explanation string while building");
    Mfield (fld (Tnamed "LinkList") "lmatches" "list of matches");
    Mfield (fld (Tnamed "LinkList") "lfmatches"
                "list of matches without fignore");
    Mfield (fld (Tnamed "LinkList") "lallccs" "list of used compctls");
    Mfield (fld Tint "num" "number of this group");
    Mfield (fld Tint "nbrbeg" "number of opened braces");
    Mfield (fld Tint "nbrend" "number of closed braces");
    Mfield (fld Tint "new" "new matches since last permalloc()");
    Mfield (fld Tint "dcount" "number of matches to list in columns");
    Mfield (fld Tint "cols" "number of columns");
    Mfield (fld Tint "lins" "number of lines");
    Mfield (fld Tint "width" "column width");
    Mfield (fld int_p "widths" "column widths for listpacked");
    Mfield (fld Tint "totl" "total length");
    Mfield (fld Tint "shortest" "length of shortest match");
    Mfield (fld (Tnamed "Cmgroup") "perm"
                "perm. alloced version of this group");
    Mifdef "ZSH_HEAP_DEBUG" [ fld (Tnamed "Heapid") "heap_id" "" ] ].

Definition menuinfo_members : list member :=
  [ Mfield (fld (Tnamed "Cmgroup") "group" "position in the group list");
    Mfield (fld (Tptr (Tnamed "Cmatch")) "cur" "match currently inserted");
    Mfield (fld Tint "pos" "begin on line");
    Mfield (fld Tint "len" "length of inserted string");
    Mfield (fld Tint "end" "end on the line");
    Mfield (fld Tint "we" "non-zero if the cursor was at the end");
    Mfield (fld Tint "insc" "length of suffix inserted");
    Mfield (fld Tint "asked" "we asked if the list should be shown");
    Mfield (fld char_p "prebr" "prefix before a brace, if any");
    Mfield (fld char_p "postbr" "suffix after a brace") ].

Definition zsh_h : list item :=
  [ Idefine "mod_export" [ Dempty Static ];
    Iinclude "stdint.h";
    Iinclude "unistd.h";
    Idecl [] (Dtypedef Tsize_t "LinkList");
    Idecl [] (Dtypedef Tuint32_t "mode_t");
    Idecl ["mod_export"]
      (Dvar Static Tuchar [("Meta", Some (Ecast Tchar (Enum 0x83)))]);
    Idecl ["mod_export"]
      (Dvar Static Tuchar [("Inpar", Some (Ecast Tchar (Enum 0x88)))]);
    Idecl ["mod_export"]
      (Dvar Static Tuchar [("Outpar", Some (Ecast Tchar (Enum 0x8a)))]);
    Idecl [] (Dtypedef (Tptr (Tstruct "cmatcher")) "Cmatcher");
    Idecl [] (Dtypedef (Tptr (Tstruct "cmlist")) "Cmlist");
    Idecl [] (Dtypedef (Tptr (Tstruct "cpattern")) "Cpattern");
    Idecl [] (Dtypedef (Tptr (Tstruct "menuinfo")) "Menuinfo");
    Idecl [] (Dtypedef (Tptr (Tstruct "cexpl")) "Cexpl");
    Idecl [] (Dtypedef (Tptr (Tstruct "cmgroup")) "Cmgroup");
    Idecl [] (Dtypedef (Tptr (Tstruct "cmatch")) "Cmatch");
    Idecl [] (Dstruct "cmatch" cmatch_members);
    Idecl [] (Dtypedef (Tptr (Tstruct "cmgroup")) "Cmgroup");
    Idecl [] (Dstruct "cmgroup" cmgroup_members);
    Idecl ["mod_export"] (Dvar Auto (Tnamed "LinkList") [("matches", None)]);
    Idecl ["mod_export"]
      (Dvar Auto (Tnamed "Cmgroup")
         [("lastmatches", None); ("pmatches", None); ("amatches", None);
          ("lmatches", None); ("lastlmatches", None)]);
    Idecl ["mod_export"] (Dvar Auto (Tptr char_p) [("cfargs", None)]);
    Idecl ["mod_export"] (Dvar Auto Tint [("cfret", None)]);
    Idecl ["mod_export"] (Dvar Auto char_p [("compfunc", Some Enull)]);
    Idecl ["mod_export"] (Dvar Auto Tint [("nbrbeg", None); ("nbrend", None)]);
    Idecl ["mod_export"]
      (Dfun Auto Tint "menucomplete" (Plist [prm (Tptr char_p) "args"]) None);
    Idecl ["mod_export"]
      (Dfun Auto Tvoid "makezleparams" (Plist [prm Tint "ro"]) None);
    Idecl ["mod_export"]
      (Dfun Auto Tint "permmatches" (Plist [prm Tint "last"]) None);
    Idecl ["mod_export"]
      (Dfun Auto Tvoid "do_single" (Plist [prm (Tnamed "Cmatch") "m"]) None);
    Idecl ["mod_export"] (Dfun Auto Tvoid "metafy_line" Pvoid None);
    Idecl ["mod_export"] (Dfun Auto Tvoid "unmetafy_line" Pvoid None);
    Idecl [] (Dstruct "menuinfo" menuinfo_members);
    Idecl ["mod_export"] (Dvar Auto (Tstruct "menuinfo") [("minfo", None)]);
    Idecl [] (Dfun Auto Tint "expandhistory" Punspec None);
    Idecl [] (Dfun Auto Tvoid "set_histno"
                (Plist [prm (Tptr Tvoid) "pm"; prm Tlong "x"]) None);
    Idecl [] (Dfun Auto Tint "selectkeymap"
                (Plist [prm char_p "name"; prm Tint "fb"]) None);
    Idecl [] (Dfun Auto Tvoid "initundo" Pvoid None);
    Idecl [] (Dfun Auto Tint "acceptline" Punspec None) ].

(** ** Reading the header *)

(** The declarations the file spells out, macro replacement lists
    included, before any preprocessing. *)
Definition item_decls (it : item) : list decl :=
  match it with
  | Idefine _ body => body
  | Iinclude _ => []
  | Idecl _ d => [d]
  end.

Definition written (its : list item) : list decl :=
  flat_map item_decls its.

(** The declarations written as such, one per [Idecl]. *)
Fixpoint declarations (its : list item) : list decl :=
  match its with
  | [] => []
  | Idecl _ d :: its' => d :: declarations its'
  | _ :: its' => declarations its'
  end.

Fixpoint defined_macros (its : list item) : list string :=
  match its with
  | [] => []
  | Idefine x _ :: its' => x :: defined_macros its'
  | _ :: its' => defined_macros its'
  end.

(** [P] holds of the translation unit the header preprocesses to, whatever
    macros the compiler invocation defines beforehand. *)
Definition in_zsh_h (P : list decl -> Prop) : Prop :=
  forall defined : string -> bool,
    exists u, preprocess defined zsh_h = Some u /\ P u.

(** [struct tag] has the member [f], written as in the source, and its
    type unfolds to [t]. *)
Definition has_member (u : list decl) (tag : string) (f : field) (t : ctype)
  : Prop :=
  match find_struct tag u with
  | Some fs => find_field (f_name f) fs = Some f
  | None => False
  end /\ member_type u tag (f_name f) = Some t.

(** The struct tags a struct holds by value, as opposed to through a
    pointer. *)
Definition embedded (u : list decl) (tag : string) : list string :=
  match find_struct tag u with
  | Some fs =>
      flat_map (fun f => match resolve_in u (f_type f) with
                         | Some (Tstruct s) => [s]
                         | _ => []
                         end) fs
  | None => []
  end.

Definition pointer_typed (xs : list (string * option ctype)) : list string :=
  flat_map (fun p => match snd p with
                     | Some (Tptr _) => [fst p]
                     | _ => []
                     end) xs.

Definition zsh_functions : list string :=
  [ "menucomplete"; "makezleparams"; "permmatches"; "do_single";
    "metafy_line"; "unmetafy_line"; "expandhistory"; "set_histno";
    "selectkeymap"; "initundo"; "acceptline" ].

(** The three kinds of declaration in "type aliases, struct layouts and
    function signatures". *)
Definition flat_kind (k : kind) : bool :=
  match k with
  | Ktypedef | Kstruct | Kprototype => true
  | Kempty | Kvariable | Kdefinition => false
  end.

(** A function that is declared once, as a signature without a body, and
    whose name has external linkage. *)
Definition extern_signature (u : list decl) (f : string) : Prop :=
  linkage_of u f = Some External /\
  exists sc ret ps, fun_decls u f = [Dfun sc ret f ps None].

(** Every replacement list of a macro environment satisfies [P]. *)
Definition env_ok (P : decl -> Prop) (env : macros) : Prop :=
  Forall (fun p => Forall P (snd p)) env.

(** Storage class of the declarations of [x] in a unit. *)
Definition declares (x : string) (d : decl) : bool :=
  existsb (String.eqb x) (declared_funs d ++ declared_vars d).

Definition storage_of (d : decl) : storage :=
  match d with
  | Dempty sc | Dvar sc _ _ | Dfun sc _ _ _ _ => sc
  | Dtypedef _ _ | Dstruct _ _ => Auto
  end.

Definition not_static (d : decl) : bool :=
  match storage_of d with
  | Static => false
  | _ => true
  end.

(** What the function bodies of a unit return, and how often they branch. *)
Definition returned_values (u : list decl) : list expr :=
  flat_map returned (statements u).

Definition branch_count (u : list decl) : nat :=
  fold_right (fun s n => (branches s + n)%nat) 0%nat (statements u).


(** How often [x] names a member of [struct tag]. *)
Definition occurrences (u : list decl) (tag x : string) : nat :=
  count_occ string_dec (member_names u tag) x.

(** Two implementations the shell is built for: [char] is signed on
    x86-64 and unsigned on AArch64 Linux; both are LP64. *)
Definition x86_64 : abi :=
  {| char_signed := true; long_bits := 64; size_bits := 64 |}.

Definition aarch64 : abi :=
  {| char_signed := false; long_bits := 64; size_bits := 64 |}.

(** The unit the header preprocesses to when no macro is predefined. *)
Definition plain_unit : list decl :=
  match preprocess (fun _ => false) zsh_h with
  | Some u => u
  | None => []
  end.

(** ** Further readings of a unit *)

Definition is_empty (d : decl) : bool :=
  match d with
  | Dempty _ => true
  | _ => false
  end.

(** The declarations that declare something. *)
Definition declaring (ds : list decl) : list decl :=
  filter (fun d => negb (is_empty d)) ds.

(** The file with every macro name in front of a declaration erased. *)
Definition unmark (its : list item) : list item :=
  map (fun it => match it with
                 | Idecl _ d => Idecl [] d
                 | _ => it
                 end) its.

(** Every macro the file defines is replaced by empty declarations only. *)
Definition inert_macros (its : list item) : bool :=
  forallb (fun it => match it with
                     | Idefine _ body => forallb is_empty body
                     | _ => true
                     end) its.

Definition variables (ds : list decl) : list string :=
  flat_map declared_vars ds.

Definition zsh_static_variables : list string :=
  [ "Meta"; "Inpar"; "Outpar" ].

Definition zsh_extern_variables : list string :=
  [ "matches"; "lastmatches"; "pmatches"; "amatches"; "lmatches";
    "lastlmatches"; "cfargs"; "cfret"; "compfunc"; "nbrbeg"; "nbrend";
    "minfo" ].

Fixpoint mem (x : string) (l : list string) : bool :=
  match l with
  | [] => false
  | y :: l' => String.eqb x y || mem x l'
  end.

Fixpoint distinct (l : list string) : bool :=
  match l with
  | [] => true
  | x :: l' => negb (mem x l') && distinct l'
  end.

(** [ZSH_HEAP_DEBUG] predefined and nothing else. *)
Definition only_heap_debug (x : string) : bool :=
  String.eqb x "ZSH_HEAP_DEBUG".

(** The unit the header preprocesses to then. *)
Definition heap_debug_unit : list decl :=
  match preprocess only_heap_debug zsh_h with
  | Some u => u
  | None => []
  end.

Definition struct_fields (u : list decl) (tag : string) : list field :=
  match find_struct tag u with
  | Some fs => fs
  | None => []
  end.

Definition is_struct (tag : string) (d : decl) : bool :=
  match d with
  | Dstruct t _ => String.eqb tag t
  | _ => false
  end.

Definition without_struct (tag : string) (u : list decl) : list decl :=
  filter (fun d => negb (is_struct tag d)) u.

(** *** Names in scope *)

Fixpoint type_names (t : ctype) : list string :=
  match t with
  | Tnamed x => [x]
  | Tptr t' => type_names t'
  | _ => []
  end.

Fixpoint type_tags (t : ctype) : list string :=
  match t with
  | Tstruct s => [s]
  | Tptr t' => type_tags t'
  | _ => []
  end.

Definition param_types (ps : params) : list ctype :=
  match ps with
  | Plist l => map p_type l
  | Punspec | Pvoid => []
  end.

(** The types a declaration mentions. *)
Definition used_types (d : decl) : list ctype :=
  match d with
  | Dempty _ => []
  | Dtypedef t _ => [t]
  | Dstruct _ ms => map f_type (fields_of ms)
  | Dvar _ t _ => [t]
  | Dfun _ ret _ ps _ => ret :: param_types ps
  end.

(** The typedef names used before any declaration of them, reading the
    unit from top to bottom with [known] declared so far. *)
Fixpoint undeclared_from (known : list string) (ds : list decl)
  : list string :=
  match ds with
  | [] => []
  | d :: ds' =>
      filter (fun x => negb (mem x known)) (flat_map type_names (used_types d))
      ++ undeclared_from (match d with
                          | Dtypedef _ x => x :: known
                          | _ => known
                          end) ds'
  end.

Definition defined_tags (u : list decl) : list string :=
  flat_map (fun d => match d with
                     | Dstruct t _ => [t]
                     | _ => []
                     end) u.

Definition referenced_tags (u : list decl) : list string :=
  nodup string_dec (flat_map type_tags (flat_map used_types u)).

(** Struct tags mentioned but given no member list: opaque to a reader of
    the unit. *)
Definition opaque_tags (u : list decl) : list string :=
  filter (fun s => negb (mem s (defined_tags u))) (referenced_tags u).

(** The struct a type denotes by value, if it is one. *)
Definition value_struct (env : list (string * ctype)) (t : ctype)
  : list string :=
  match unfold_type env t with
  | Some (Tstruct s) => [s]
  | _ => []
  end.

(** The structs used by value (as a member, a variable, a parameter or a
    result) at a point where their member list is not complete, reading
    the unit from top to bottom.  Inside its own member list a struct is
    not complete yet. *)
Fixpoint incomplete_from (env : list (string * ctype)) (tags : list string)
                         (ds : list decl) : list string :=
  match ds with
  | [] => []
  | d :: ds' =>
      match d with
      | Dtypedef _ _ => []
      | _ => filter (fun s => negb (mem s tags))
                    (flat_map (value_struct env) (used_types d))
      end
      ++ incomplete_from (typedefs_from env [d])
                         (match d with
                          | Dstruct t _ => t :: tags
                          | _ => tags
                          end) ds'
  end.

(** *** Signatures *)

Definition is_integer (t : ctype) : bool :=
  match t with
  | Tchar | Tuchar | Tint | Tlong | Tsize_t | Tuint32_t => true
  | _ => false
  end.

Definition scalar_in (u : list decl) (t : ctype) : bool :=
  match resolve_in u t with
  | Some r => is_integer r || is_pointer r
  | None => false
  end.

Definition result_in (u : list decl) (t : ctype) : bool :=
  match resolve_in u t with
  | Some Tvoid => true
  | Some r => is_integer r || is_pointer r
  | None => false
  end.

(** A function declaration that passes and returns scalars only. *)
Definition scalar_signature (u : list decl) (d : decl) : bool :=
  match d with
  | Dfun _ ret _ ps _ =>
      result_in u ret && forallb (scalar_in u) (param_types ps)
  | _ => true
  end.

(** Functions declared with empty parentheses: no prototype. *)
Definition unprototyped (u : list decl) : list string :=
  flat_map (fun d => match d with
                     | Dfun _ _ f Punspec _ => [f]
                     | _ => []
                     end) u.

Definition void_prototyped (u : list decl) : list string :=
  flat_map (fun d => match d with
                     | Dfun _ _ f Pvoid _ => [f]
                     | _ => []
                     end) u.

(** *** Typedef declarations *)

Definition typedef_decls (u : list decl) : list (string * ctype) :=
  flat_map (fun d => match d with
                     | Dtypedef t x => [(x, t)]
                     | _ => []
                     end) u.

Fixpoint ctype_eqb (a b : ctype) : bool :=
  match a, b with
  | Tvoid, Tvoid | Tchar, Tchar | Tuchar, Tuchar | Tint, Tint
  | Tlong, Tlong | Tsize_t, Tsize_t | Tuint32_t, Tuint32_t => true
  | Tnamed x, Tnamed y => String.eqb x y
  | Tstruct x, Tstruct y => String.eqb x y
  | Tptr a', Tptr b' => ctype_eqb a' b'
  | _, _ => false
  end.

(** Every later declaration of a typedef name repeats the type of the
    first one, as C11 6.7p3 asks. *)
Fixpoint consistent (seen tds : list (string * ctype)) : bool :=
  match tds with
  | [] => true
  | (x, t) :: tds' =>
      match lookup x seen with
      | Some t' => ctype_eqb t t'
      | None => true
      end && consistent ((x, t) :: seen) tds'
  end.

(** *** Layout of structs with scalar members *)

(** Size in bytes of a scalar; alignment is taken equal to size.  The
    widths are those of [int_shape]: [char] has 8 bits, [int] and
    [uint32_t] 32 on every implementation, [long] and [size_t] what the
    implementation says.  A width that is not a whole number of bytes has
    no size. *)
Definition bytes_of (a : abi) (ptr_bytes : Z) (t : ctype) : option Z :=
  match t with
  | Tptr _ => Some ptr_bytes
  | _ =>
      match int_shape a t with
      | Some (_, w) => if w mod 8 =? 0 then Some (w / 8) else None
      | None => None
      end
  end.

Definition align_up (n al : Z) : Z := (n + al - 1) / al * al.

(** Place members one after the other from offset [cur]: each at the next
    multiple of its size.  Gives name, offset and size of every member,
    the end of the last one and the largest alignment met. *)
Fixpoint place (size : ctype -> option Z) (cur al : Z) (fs : list field)
  : option (list (string * Z * Z) * Z * Z) :=
  match fs with
  | [] => Some ([], cur, al)
  | f :: fs' =>
      match size (f_type f) with
      | Some s =>
          let o := align_up cur s in
          match place size (o + s) (Z.max al s) fs' with
          | Some (l, e, al') => Some ((f_name f, o, s) :: l, e, al')
          | None => None
          end
      | None => None
      end
  end.

Record layout : Type := {
  l_members : list (string * Z * Z);
  l_size : Z;
  l_align : Z
}.

Definition member_size (a : abi) (ptr_bytes : Z) (u : list decl) (t : ctype)
  : option Z :=
  match resolve_in u t with
  | Some r => bytes_of a ptr_bytes r
  | None => None
  end.

Definition struct_layout (a : abi) (ptr_bytes : Z) (u : list decl)
                         (tag : string) : option layout :=
  match find_struct tag u with
  | Some fs =>
      match place (member_size a ptr_bytes u) 0 1 fs with
      | Some (l, e, al) =>
          Some {| l_members := l; l_size := align_up e al; l_align := al |}
      | None => None
      end
  | None => None
  end.

Definition struct_size (a : abi) (ptr_bytes : Z) (u : list decl)
                       (tag : string) : option (Z * Z) :=
  option_map (fun l => (l_size l, l_align l)) (struct_layout a ptr_bytes u tag).

(** Name and offset of every member, in order. *)
Definition offsets (a : abi) (ptr_bytes : Z) (u : list decl) (tag : string)
  : option (list (string * Z)) :=
  option_map (fun l => map fst (l_members l)) (struct_layout a ptr_bytes u tag).

(** A 32-bit implementation: [long], [size_t] and pointers take four
    bytes. *)
Definition i386 : abi :=
  {| char_signed := true; long_bits := 32; size_bits := 32 |}.

(** The marks that name no macro defined above them, reading the file
    from top to bottom with [known] defined so far. *)
Fixpoint unbound_from (known : list string) (its : list item) : list string :=
  match its with
  | [] => []
  | Idefine x _ :: its' => unbound_from (x :: known) its'
  | Iinclude _ :: its' => unbound_from known its'
  | Idecl marks _ :: its' =>
      filter (fun m => negb (mem m known)) marks ++ unbound_from known its'
  end.

(** The file without its [#define] lines. *)
Definition undefine (its : list item) : list item :=
  filter (fun it => match it with
                    | Idefine _ _ => false
                    | _ => true
                    end) its.

(** The resolved type of variable [x]. *)
Definition var_type (u : list decl) (x : string) : option ctype :=
  match find_var x u with
  | Some (_, t, _) => resolve_in u t
  | None => None
  end.

(** Names that are both a variable of the unit and a member of
    [struct tag], each with its type as a variable and as a member. *)
Definition shared_names (u : list decl) (tag : string)
  : list (string * option ctype * option ctype) :=
  map (fun x => (x, var_type u x, member_type u tag x))
      (filter (fun x => mem x (variables u)) (member_names u tag)).

(** ** Facts about the C fragment *)

Section PreprocessFacts.

Variable defined : string -> bool.

Lemma cpp_decl_body (env : macros) (d : decl) :
  body_of (cpp_decl defined env d) = body_of d.
Proof. destruct d; reflexivity. Qed.

Lemma cpp_decl_kind (env : macros) (d : decl) :
  kind_of (cpp_decl defined env d) = kind_of d.
Proof. destruct d; reflexivity. Qed.

(** A property of declarations that does not look inside struct member
    lists and holds of everything a file spells holds of everything the
    file preprocesses to. *)
Variable P : decl -> Prop.
Hypothesis P_cpp : forall env d, P d -> P (cpp_decl defined env d).

Lemma lookup_env_ok (env : macros) (m : string) (body : list decl) :
  env_ok P env -> lookup m env = Some body -> Forall P body.
Proof.
  induction 1 as [| [y b] env' Hb _ IH]; simpl.
  - discriminate.
  - destruct (String.eqb m y).
    + intros E. injection E as <-. exact Hb.
    + exact IH.
Qed.

Lemma expand_ok (env : macros) (marks : list string) (ds : list decl) :
  env_ok P env -> expand env marks = Some ds -> Forall P ds.
Proof.
  intros Henv. revert ds.
  induction marks as [| m ms IH]; simpl; intros ds E.
  - injection E as <-. constructor.
  - destruct (lookup m env) as [body |] eqn:L; [| discriminate].
    destruct (expand env ms) as [rest |]; [| discriminate].
    injection E as <-.
    apply Forall_app. split.
    + eapply lookup_env_ok; eassumption.
    + apply IH. reflexivity.
Qed.

Lemma preprocess_from_ok (its : list item) :
  forall (env : macros) (u : list decl),
    env_ok P env ->
    Forall P (written its) ->
    preprocess_from defined env its = Some u ->
    Forall P u.
Proof.
  induction its as [| it its IH]; intros env u Henv Hw E.
  - injection E as <-. constructor.
  - unfold written in Hw. simpl in Hw.
    apply Forall_app in Hw. destruct Hw as [Hit Hrest].
    destruct it as [x body | h | marks d]; simpl in E.
    + apply (IH ((x, body) :: env)); auto.
      constructor; assumption.
    + apply (IH env); auto.
    + destruct (expand env marks) as [pre |] eqn:X; [| discriminate].
      destruct (preprocess_from defined env its) as [rest |] eqn:R;
        [| discriminate].
      injection E as <-.
      apply Forall_app. split.
      * eapply expand_ok; eassumption.
      * constructor.
        -- apply P_cpp. inversion Hit; assumption.
        -- apply (IH env); auto.
Qed.

Lemma preprocess_ok (its : list item) (u : list decl) :
  Forall P (written its) -> preprocess defined its = Some u -> Forall P u.
Proof.
  intros Hw E. apply (preprocess_from_ok its [] u); auto. constructor.
Qed.

End PreprocessFacts.

Lemma no_body_statements (u : list decl) :
  Forall (fun d => body_of d = None) u -> statements u = [].
Proof.
  induction 1 as [| d u Hd _ IH]; simpl.
  - reflexivity.
  - unfold statements in *. simpl. rewrite Hd. exact IH.
Qed.

Lemma no_statements_unmodified (u : list decl) :
  statements u = [] -> modified u = [].
Proof. unfold modified. intros ->. reflexivity. Qed.

(** *** Byte conversions *)

Lemma wrap_unsigned_signed (n : Z) :
  wrap_unsigned 8 (wrap_signed 8 n) = n mod 2 ^ 8.
Proof.
  unfold wrap_unsigned, wrap_signed.
  change (2 ^ (8 - 1)) with 128. change (2 ^ 8) with 256.
  pose proof (Z.mod_pos_bound n 256 ltac:(lia)) as B.
  destruct (n mod 256 <? 128).
  - apply Z.mod_small. lia.
  - rewrite <- (Z.mod_unique_pos (n mod 256 - 256) 256 (-1) (n mod 256)); lia.
Qed.

Lemma wrap_unsigned_idem (n : Z) :
  wrap_unsigned 8 (wrap_unsigned 8 n) = n mod 2 ^ 8.
Proof. unfold wrap_unsigned. apply Z.mod_mod. discriminate. Qed.

(** Casting an integer to [char] and storing the result in an
    [unsigned char] keeps the value modulo 2^8, whether [char] is signed
    or not. *)
Lemma uchar_of_char (a : abi) (n : Z) :
  exists c : Z,
    eval a (Ecast Tchar (Enum n)) = Some (Vint c) /\
    convert a Tuchar (Vint c) = Some (Vint (n mod 2 ^ 8)).
Proof.
  unfold convert. simpl. unfold convert. simpl.
  destruct (char_signed a); eexists; split; try reflexivity.
  - now rewrite wrap_unsigned_signed.
  - now rewrite wrap_unsigned_idem.
Qed.

Example meta_cast_x86_64 :
  eval x86_64 (Ecast Tchar (Enum 0x83)) = Some (Vint (-125)).
Proof. reflexivity. Qed.

Example meta_cast_aarch64 :
  eval aarch64 (Ecast Tchar (Enum 0x83)) = Some (Vint 131).
Proof. reflexivity. Qed.

Example meta_x86_64 : initial_value x86_64 plain_unit "Meta" = Some (Vint 131).
Proof. vm_compute. reflexivity. Qed.

Example meta_aarch64 : initial_value aarch64 plain_unit "Meta" = Some (Vint 131).
Proof. vm_compute. reflexivity. Qed.

(** *** Linkage *)

Lemma declares_fun (x : string) sc ret f ps b :
  declares x (Dfun sc ret f ps b) = String.eqb x f.
Proof. unfold declares. simpl. apply orb_false_r. Qed.

Lemma declares_var (x : string) sc t vs :
  declares x (Dvar sc t vs) = existsb (String.eqb x) (map fst vs).
Proof. reflexivity. Qed.

Lemma link_external (sc : storage) (is_fun : bool) :
  sc <> Static -> link (Some External) sc is_fun = External.
Proof. destruct sc, is_fun; simpl; congruence. Qed.

Lemma link_first (sc : storage) (is_fun : bool) :
  sc <> Static -> link None sc is_fun = External.
Proof. destruct sc, is_fun; simpl; congruence. Qed.

(** Once external, an identifier stays external as long as none of its
    later declarations is [static]. *)
Lemma linkage_from_external (x : string) (ds : list decl) :
  forallb (fun d => implb (declares x d) (not_static d)) ds = true ->
  linkage_from (Some External) x ds = Some External.
Proof.
  induction ds as [| d ds IH]; simpl; intros H.
  - reflexivity.
  - apply andb_true_iff in H. destruct H as [Hd Hds].
    destruct d as [sc | t y | tag ms | sc t vs | sc ret f ps b]; auto.
    + rewrite declares_var in Hd.
      destruct (existsb (String.eqb x) (map fst vs)); auto.
      unfold not_static in Hd. simpl in Hd.
      rewrite link_external; auto. destruct sc; congruence.
    + rewrite declares_fun in Hd.
      destruct (String.eqb x f); auto.
      unfold not_static in Hd. simpl in Hd.
      rewrite link_external; auto. destruct sc; congruence.
Qed.

(** An identifier that is declared, and never with [static], has external
    linkage. *)
Lemma linkage_of_external (x : string) (ds : list decl) :
  existsb (declares x) ds = true ->
  forallb (fun d => implb (declares x d) (not_static d)) ds = true ->
  linkage_of ds x = Some External.
Proof.
  unfold linkage_of.
  induction ds as [| d ds IH]; simpl; intros He Hf.
  - discriminate.
  - apply andb_true_iff in Hf. destruct Hf as [Hd Hds].
    destruct d as [sc | t y | tag ms | sc t vs | sc ret f ps b];
      simpl in He; auto.
    + rewrite declares_var in Hd, He.
      destruct (existsb (String.eqb x) (map fst vs)); simpl in He; auto.
      unfold not_static in Hd. simpl in Hd.
      rewrite link_first by (destruct sc; congruence).
      now apply linkage_from_external.
    + rewrite declares_fun in Hd, He.
      destruct (String.eqb x f); simpl in He; auto.
      unfold not_static in Hd. simpl in Hd.
      rewrite link_first by (destruct sc; congruence).
      now apply linkage_from_external.
Qed.

(** ** The claims about [zsh.h] *)

Example plain_unit_functions : functions plain_unit = zsh_functions.
Proof. vm_compute. reflexivity. Qed.

(** Had [mod_export] been [static] without the semicolon, the functions
    declared after it would have internal linkage. *)
Example static_prototype_is_internal :
  linkage_of [Dfun Static Tint "menucomplete"
                (Plist [prm (Tptr char_p) "args"]) None] "menucomplete"
  = Some Internal.
Proof. reflexivity. Qed.

Ltac read_header :=
  let defined := fresh "defined" in
  intro defined; eexists; split; [ vm_compute; reflexivity | ].

Lemma zsh_h_preprocesses (defined : string -> bool) :
  exists u, preprocess defined zsh_h = Some u.
Proof. eexists. vm_compute. reflexivity. Qed.

Lemma zsh_h_no_body (defined : string -> bool) (u : list decl) :
  preprocess defined zsh_h = Some u -> Forall (fun d => body_of d = None) u.
Proof.
  apply preprocess_ok.
  - intros env d H. now rewrite cpp_decl_body.
  - vm_compute. repeat constructor.
Qed.

(** C1.  The header has no behaviour of its own.  Every declaration
    written in it is a type alias, a struct layout, a variable declaration
    or a function prototype.  After preprocessing the same holds, the only
    addition being the empty [static;] that [mod_export] is replaced by;
    no declaration carries a function body, so the unit holds no
    statement at all. *)
Theorem header_declares_only :
  Forall (fun d => header_kind (kind_of d) = true) (declarations zsh_h) /\
  in_zsh_h (fun u =>
    Forall (fun d => header_kind (kind_of d) = true \/ d = Dempty Static) u /\
    Forall (fun d => body_of d = None) u /\
    statements u = []).
Proof.
  split.
  - vm_compute. repeat constructor.
  - intros defined.
    destruct (zsh_h_preprocesses defined) as [u E].
    exists u. split; [exact E |].
    pose proof (zsh_h_no_body defined u E) as Hb.
    repeat split.
    + revert E. apply preprocess_ok.
      * intros env d [H | ->].
        -- left. now rewrite cpp_decl_kind.
        -- right. reflexivity.
      * unfold written, zsh_h. simpl.
        repeat (apply Forall_cons;
                [ first [ left; reflexivity | right; reflexivity ] |]).
        apply Forall_nil.
    + exact Hb.
    + now apply no_body_statements.
Qed.

Lemma has_member_intro (u : list decl) (tag : string) (f : field)
                       (t : ctype) (fs : list field) :
  find_struct tag u = Some fs ->
  find_field (f_name f) fs = Some f ->
  resolve_in u (f_type f) = Some t ->
  has_member u tag f t.
Proof.
  intros Hs Hf Ht. unfold has_member, member_type.
  rewrite Hs, Hf. split; [reflexivity | exact Ht].
Qed.

Ltac member :=
  eapply has_member_intro; vm_compute; reflexivity.

Ltac members :=
  repeat match goal with
         | |- has_member _ _ _ _ /\ _ => split; [member |]
         | |- has_member _ _ _ _ => member
         end.

(** C3.  [struct cmgroup] is a node of a doubly-linked list: [prev] and
    [next] are declared [Cmgroup], a pointer to [struct cmgroup] itself,
    so a node refers to its neighbours and holds no struct by value.  It
    carries the matches ([matches], pointing to [Cmatch] entries) and the
    counters of one listing: [mcount], [ecount], [cols], [width] and the
    per-column [widths]. *)
Theorem cmgroup_is_list_node :
  in_zsh_h (fun u =>
    has_member u "cmgroup"
      (fld (Tnamed "Cmgroup") "prev" "previous on the list")
      (Tptr (Tstruct "cmgroup")) /\
    has_member u "cmgroup"
      (fld (Tnamed "Cmgroup") "next" "next one in list")
      (Tptr (Tstruct "cmgroup")) /\
    embedded u "cmgroup" = [] /\
    has_member u "cmgroup"
      (fld (Tptr (Tnamed "Cmatch")) "matches" "the matches")
      (Tptr (Tptr (Tstruct "cmatch"))) /\
    has_member u "cmgroup" (fld Tint "mcount" "number of matches") Tint /\
    has_member u "cmgroup"
      (fld Tint "ecount" "number of explanation string") Tint /\
    has_member u "cmgroup" (fld Tint "cols" "number of columns") Tint /\
    has_member u "cmgroup" (fld Tint "width" "column width") Tint /\
    has_member u "cmgroup"
      (fld (Tptr Tint) "widths" "column widths for listpacked") (Tptr Tint)).
Proof.
  read_header.
  members.
  split; [| members].
  unfold embedded.
  destruct (defined "ZSH_HEAP_DEBUG"); vm_compute; reflexivity.
Qed.

(** C4.  [struct cmatch] describes one candidate: one [str] holding the
    match text, the prefix and suffix fragments [ipre], [ripre], [isuf],
    [ppre], [psuf], [prpre], [pre] and [suf], the display string [disp],
    each a single [char *], and the integer [flags]; each of these names
    occurs once in the struct. *)
Theorem cmatch_is_one_candidate :
  in_zsh_h (fun u =>
    has_member u "cmatch" (fld char_p "str" "the match itself") char_p /\
    has_member u "cmatch"
      (fld char_p "ipre" "ignored prefix, has to be re-inserted") char_p /\
    has_member u "cmatch"
      (fld char_p "ripre" "ignored prefix, unquoted") char_p /\
    has_member u "cmatch" (fld char_p "isuf" "ignored suffix") char_p /\
    has_member u "cmatch" (fld char_p "ppre" "the path prefix") char_p /\
    has_member u "cmatch" (fld char_p "psuf" "the path suffix") char_p /\
    has_member u "cmatch"
      (fld char_p "prpre" "path prefix for opendir") char_p /\
    has_member u "cmatch"
      (fld char_p "pre" "prefix string from -P") char_p /\
    has_member u "cmatch"
      (fld char_p "suf" "suffix string from -S") char_p /\
    has_member u "cmatch"
      (fld char_p "disp" "string to display (compadd -d)") char_p /\
    has_member u "cmatch" (fld Tint "flags" "see CMF_* below") Tint /\
    Forall (fun x => occurrences u "cmatch" x = 1%nat)
      [ "str"; "ipre"; "ripre"; "isuf"; "ppre"; "psuf"; "prpre"; "pre";
        "suf"; "disp"; "flags" ]).
Proof.
  read_header.
  members.
  unfold occurrences.
  repeat (apply Forall_cons; [vm_compute; reflexivity |]).
  apply Forall_nil.
Qed.

(** X13.  The members of [struct menuinfo] that describe the cursor of
    menu completion, as declared: [group] is a [Cmgroup], a pointer to
    [struct cmgroup]; [cur] points to [Cmatch] entries; [pos], [len] and
    [we] are [int]; each carries the comment the source gives it.  Of
    [we] the header says that it is non-zero if the cursor was at the
    end; which values it takes is decided by code outside the header. *)
Theorem menuinfo_is_cursor_state :
  in_zsh_h (fun u =>
    has_member u "menuinfo"
      (fld (Tnamed "Cmgroup") "group" "position in the group list")
      (Tptr (Tstruct "cmgroup")) /\
    has_member u "menuinfo"
      (fld (Tptr (Tnamed "Cmatch")) "cur" "match currently inserted")
      (Tptr (Tptr (Tstruct "cmatch"))) /\
    has_member u "menuinfo" (fld Tint "pos" "begin on line") Tint /\
    has_member u "menuinfo"
      (fld Tint "len" "length of inserted string") Tint /\
    has_member u "menuinfo"
      (fld Tint "we" "non-zero if the cursor was at the end") Tint).
Proof.
  read_header.
  members.
Qed.

(** C6, counterexample.  The header is not a list of type aliases, struct
    layouts and function signatures alone: [static unsigned char Meta = ((char) 0x83);] is a
    declaration of the file and none of the three. *)
Lemma flat_list_omits_variables :
  ~ Forall (fun d => flat_kind (kind_of d) = true) (declarations zsh_h).
Proof.
  intros H. rewrite Forall_forall in H.
  specialize
    (H (Dvar Static Tuchar [("Meta", Some (Ecast Tchar (Enum 0x83)))])).
  discriminate H.
  right. right. left. reflexivity.
Qed.

(** C6, amended.  The header is a flat list of type aliases, struct
    layouts, variable declarations and function signatures.  The functions
    it declares are [menucomplete], [makezleparams], [permmatches],
    [do_single], [metafy_line], [unmetafy_line], [expandhistory],
    [set_histno], [selectkeymap], [initundo] and [acceptline], in this
    order.  Each is declared once, as a signature without a body, and has
    external linkage: the [static] of [mod_export] ends in a semicolon of
    its own and never reaches the declaration that follows. *)
Theorem header_is_flat_list :
  Forall (fun d => flat_kind (kind_of d) = true \/ kind_of d = Kvariable)
         (declarations zsh_h) /\
  in_zsh_h (fun u =>
    functions u = zsh_functions /\
    Forall (extern_signature u) zsh_functions).
Proof.
  split.
  - unfold declarations, zsh_h.
    repeat (apply Forall_cons;
            [ first [ left; reflexivity | right; reflexivity ] |]).
    apply Forall_nil.
  - read_header.
    split; [vm_compute; reflexivity |].
    unfold zsh_functions.
    repeat (apply Forall_cons;
            [ split;
              [ apply linkage_of_external; vm_compute; reflexivity
              | do 3 eexists; vm_compute; reflexivity ] |]).
    apply Forall_nil.
Qed.

(** C7.  The header expresses no error condition.  It defines one macro,
    [mod_export]; none of its function declarations has a body, so no
    function returns a value or takes a branch in this file. *)
Theorem no_error_condition :
  defined_macros zsh_h = ["mod_export"] /\
  in_zsh_h (fun u =>
    Forall (fun f => Forall (fun d => body_of d = None) (fun_decls u f))
           (functions u) /\
    returned_values u = [] /\
    branch_count u = 0%nat).
Proof.
  split; [reflexivity |].
  intros defined.
  destruct (zsh_h_preprocesses defined) as [u E].
  exists u. split; [exact E |].
  pose proof (zsh_h_no_body defined u E) as Hb.
  unfold returned_values, branch_count.
  rewrite (no_body_statements u Hb).
  repeat split.
  apply Forall_forall. intros f _.
  unfold fun_decls. apply Forall_forall. intros d Hd.
  apply filter_In in Hd. destruct Hd as [Hd _].
  revert d Hd. now apply Forall_forall.
Qed.

(** C8.  [Meta], [Inpar] and [Outpar] are [static unsigned char]
    variables initialised with [(char) 0x83], [(char) 0x88] and
    [(char) 0x8a].  The cast yields the byte as a [char], negative where
    [char] is signed; stored in the [unsigned char] it is reduced modulo
    2^8, so the variables start as 0x83, 0x88 and 0x8A on either kind of
    implementation.  No statement of the file assigns to any variable. *)
Theorem meta_bytes (a : abi) :
  in_zsh_h (fun u =>
    (find_var "Meta" u = Some (Static, Tuchar, Some (Ecast Tchar (Enum 0x83)))
     /\ find_var "Inpar" u
        = Some (Static, Tuchar, Some (Ecast Tchar (Enum 0x88)))
     /\ find_var "Outpar" u
        = Some (Static, Tuchar, Some (Ecast Tchar (Enum 0x8a)))) /\
    (eval a (Ecast Tchar (Enum 0x83))
       = Some (Vint (if char_signed a then 0x83 - 2 ^ 8 else 0x83))
     /\ eval a (Ecast Tchar (Enum 0x88))
        = Some (Vint (if char_signed a then 0x88 - 2 ^ 8 else 0x88))
     /\ eval a (Ecast Tchar (Enum 0x8a))
        = Some (Vint (if char_signed a then 0x8a - 2 ^ 8 else 0x8a))) /\
    (initial_value a u "Meta" = Some (Vint 0x83)
     /\ initial_value a u "Inpar" = Some (Vint 0x88)
     /\ initial_value a u "Outpar" = Some (Vint 0x8a)) /\
    modified u = []).
Proof.
  intros defined.
  destruct (zsh_h_preprocesses defined) as [u E].
  exists u. split; [exact E |].
  pose proof (zsh_h_no_body defined u E) as Hb.
  assert (Hv : find_var "Meta" u
               = Some (Static, Tuchar, Some (Ecast Tchar (Enum 0x83)))
             /\ find_var "Inpar" u
                = Some (Static, Tuchar, Some (Ecast Tchar (Enum 0x88)))
             /\ find_var "Outpar" u
                = Some (Static, Tuchar, Some (Ecast Tchar (Enum 0x8a)))).
  { vm_compute in E. injection E as <-. vm_compute. auto. }
  destruct Hv as (Hm & Hi & Ho).
  split; [auto |]. split.
  - simpl. unfold convert. simpl. destruct (char_signed a); auto.
  - split.
    + unfold initial_value. rewrite Hm, Hi, Ho.
      change (resolve_in u Tuchar) with (Some Tuchar).
      destruct (uchar_of_char a 0x83) as (c1 & E1 & C1).
      destruct (uchar_of_char a 0x88) as (c2 & E2 & C2).
      destruct (uchar_of_char a 0x8a) as (c3 & E3 & C3).
      rewrite E1, E2, E3, C1, C2, C3. auto.
    + apply no_statements_unmodified. now apply no_body_statements.
Qed.


(** C10.  [compfunc] is the one variable of pointer type that the header
    declares with an initialiser; the initialiser is [NULL], so the
    variable starts as the null pointer. *)
Theorem compfunc_initially_null (a : abi) :
  in_zsh_h (fun u =>
    initialised u = [ ("Meta", Some Tuchar); ("Inpar", Some Tuchar);
                      ("Outpar", Some Tuchar); ("compfunc", Some char_p) ] /\
    pointer_typed (initialised u) = ["compfunc"] /\
    find_var "compfunc" u = Some (Auto, char_p, Some Enull) /\
    initial_value a u "compfunc" = Some Vnull).
Proof.
  read_header.
  repeat split; vm_compute; reflexivity.
Qed.

(** ** Further properties of the header *)

(** *** Macro marks *)

Lemma declaring_app (a b : list decl) :
  declaring (a ++ b) = declaring a ++ declaring b.
Proof. apply filter_app. Qed.

Lemma declaring_empties (ds : list decl) :
  Forall (fun d => is_empty d = true) ds -> declaring ds = [].
Proof.
  induction 1 as [| d ds Hd _ IH]; simpl.
  - reflexivity.
  - rewrite Hd. exact IH.
Qed.

Lemma linkage_from_declaring (x : string) (ds : list decl) :
  forall p, linkage_from p x (declaring ds) = linkage_from p x ds.
Proof.
  induction ds as [| d ds IH]; intros p.
  - reflexivity.
  - destruct d as [sc | t y | tag ms | sc t vs | sc ret f ps b]; simpl;
      try apply IH.
    + destruct (existsb (String.eqb x) (map fst vs)); apply IH.
    + destruct (String.eqb x f); apply IH.
Qed.

Lemma preprocess_from_unmark (defined : string -> bool) (its : list item) :
  forall (env : macros) (u : list decl),
    env_ok (fun d => is_empty d = true) env ->
    inert_macros its = true ->
    preprocess_from defined env its = Some u ->
    exists u',
      preprocess_from defined env (unmark its) = Some u' /\
      declaring u' = declaring u.
Proof.
  induction its as [| it its IH]; intros env u Henv Hin E.
  - exists u. split; [exact E | reflexivity].
  - simpl in Hin. apply andb_true_iff in Hin. destruct Hin as [Hit Hin].
    destruct it as [x body | h | marks d]; simpl in E |- *.
    + apply (IH ((x, body) :: env) u); auto.
      constructor; [| exact Henv].
      apply Forall_forall. intros d Hd.
      rewrite forallb_forall in Hit. now apply Hit.
    + now apply (IH env u).
    + destruct (expand env marks) as [pre |] eqn:X; [| discriminate].
      destruct (preprocess_from defined env its) as [rest |] eqn:R;
        [| discriminate].
      injection E as <-.
      destruct (IH env rest Henv Hin R) as (rest' & E' & D').
      rewrite E'. eexists. split; [reflexivity |].
      rewrite declaring_app.
      rewrite (declaring_empties pre) by (eapply expand_ok; eassumption).
      simpl. destruct (negb (is_empty (cpp_decl defined env d))); simpl;
        now rewrite D'.
Qed.

(** X1.  Marks in front of declarations are inert when every macro of the
    file is replaced by empty declarations only, as [mod_export] is by
    [static;]: the file with all marks erased preprocesses too, declares
    the same things in the same order, and gives every identifier the
    same linkage. *)
Theorem marks_change_nothing (defined : string -> bool) (its : list item)
                             (u : list decl) :
  inert_macros its = true ->
  preprocess defined its = Some u ->
  exists u',
    preprocess defined (unmark its) = Some u' /\
    declaring u' = declaring u /\
    forall x, linkage_of u' x = linkage_of u x.
Proof.
  intros Hin E.
  destruct (preprocess_from_unmark defined its [] u) as (u' & E' & D');
    auto.
  - constructor.
  - exists u'. split; [exact E' |]. split; [exact D' |].
    intros x. unfold linkage_of.
    rewrite <- (linkage_from_declaring x u').
    rewrite <- (linkage_from_declaring x u).
    now rewrite D'.
Qed.

Lemma marks_change_nothing_witness :
  exists u',
    preprocess (fun _ => false) (unmark zsh_h) = Some u' /\
    declaring u' = declaring plain_unit /\
    forall x, linkage_of u' x = linkage_of plain_unit x.
Proof.
  apply (marks_change_nothing (fun _ => false) zsh_h plain_unit);
    vm_compute; reflexivity.
Defined.

(** *** Variables *)

Lemma distinct_mem (x : string) (l : list string) :
  mem x l = false -> ~ In x l.
Proof.
  induction l as [| y l IH]; simpl; intros H.
  - tauto.
  - apply orb_false_iff in H. destruct H as [Hxy Hl].
    intros [-> | Hin].
    + rewrite String.eqb_refl in Hxy. discriminate.
    + now apply IH.
Qed.

Lemma distinct_NoDup (l : list string) : distinct l = true -> NoDup l.
Proof.
  induction l as [| x l IH]; simpl; intros H.
  - constructor.
  - apply andb_true_iff in H. destruct H as [Hx Hl].
    constructor.
    + apply distinct_mem. now destruct (mem x l).
    + now apply IH.
Qed.

(** X2.  The header declares fifteen variables, each once.  [Meta],
    [Inpar] and [Outpar] are written [static] and have internal linkage;
    the twelve others, written after [mod_export] alone, have external
    linkage. *)
Theorem variables_linkage :
  in_zsh_h (fun u =>
    variables u = zsh_static_variables ++ zsh_extern_variables /\
    NoDup (variables u) /\
    Forall (fun x => linkage_of u x = Some Internal) zsh_static_variables /\
    Forall (fun x => linkage_of u x = Some External) zsh_extern_variables).
Proof.
  read_header.
  split; [vm_compute; reflexivity |].
  split; [apply distinct_NoDup; vm_compute; reflexivity |].
  split.
  - repeat (apply Forall_cons; [vm_compute; reflexivity |]).
    apply Forall_nil.
  - unfold zsh_extern_variables.
    repeat (apply Forall_cons;
            [apply linkage_of_external; vm_compute; reflexivity |]).
    apply Forall_nil.
Qed.

(** *** Conditional compilation *)

(** X3.  Predefining [ZSH_HEAP_DEBUG] appends the member [heap_id], of
    type [Heapid], at the end of [struct cmgroup] and does nothing else:
    the twenty-eight members before it and every other declaration are
    those of the header read with no macro predefined. *)
Theorem heap_debug_appends_heap_id :
  preprocess (fun _ => false) zsh_h = Some plain_unit /\
  preprocess only_heap_debug zsh_h = Some heap_debug_unit /\
  struct_fields heap_debug_unit "cmgroup"
  = struct_fields plain_unit "cmgroup"
    ++ [fld (Tnamed "Heapid") "heap_id" ""] /\
  List.length (struct_fields plain_unit "cmgroup") = 28%nat /\
  without_struct "cmgroup" heap_debug_unit
  = without_struct "cmgroup" plain_unit.
Proof.
  split; [vm_compute; reflexivity |].
  split; [vm_compute; reflexivity |].
  split; [vm_compute; reflexivity |].
  split; vm_compute; reflexivity.
Qed.

(** X4.  Without [ZSH_HEAP_DEBUG] every typedef name the header uses has
    been declared above its use.  With it, [Heapid] is used and nowhere
    declared, so the type of [heap_id] is unknown. *)
Theorem undeclared_only_heapid (defined : string -> bool) :
  exists u,
    preprocess defined zsh_h = Some u /\
    undeclared_from [] u
    = (if defined "ZSH_HEAP_DEBUG" then ["Heapid"] else []) /\
    member_type u "cmgroup" "heap_id" = None.
Proof.
  eexists. split; [vm_compute; reflexivity |].
  destruct (defined "ZSH_HEAP_DEBUG"); split; vm_compute; reflexivity.
Qed.

(** *** Structs *)

(** X5.  The header gives member lists to [struct cmatch],
    [struct cmgroup] and [struct menuinfo].  [struct cmatcher],
    [struct cmlist], [struct cpattern] and [struct cexpl] are named but
    left opaque, and are reached through pointers only: nowhere is a
    struct used by value before its member list is complete. *)
Theorem opaque_structs_behind_pointers :
  in_zsh_h (fun u =>
    defined_tags u = ["cmatch"; "cmgroup"; "menuinfo"] /\
    opaque_tags u = ["cmatcher"; "cmlist"; "cpattern"; "cexpl"] /\
    incomplete_from [] [] u = []).
Proof.
  read_header.
  destruct (defined "ZSH_HEAP_DEBUG"); repeat split; vm_compute; reflexivity.
Qed.

(** *** Signatures *)

(** X6.  Every function the header declares takes and returns scalars
    only: an integer, a pointer, or no result; no struct is passed or
    returned by value.  [expandhistory] and [acceptline] are declared
    with empty parentheses and so carry no prototype; [metafy_line],
    [unmetafy_line] and [initundo] are declared [(void)]; the six other
    functions list their parameters. *)
Theorem signatures_are_scalar :
  in_zsh_h (fun u =>
    Forall (fun d => scalar_signature u d = true) u /\
    unprototyped u = ["expandhistory"; "acceptline"] /\
    void_prototyped u = ["metafy_line"; "unmetafy_line"; "initundo"] /\
    List.length (functions u)
    = (List.length (unprototyped u) + List.length (void_prototyped u) + 6)%nat).
Proof.
  read_header.
  split.
  - apply Forall_forall. apply forallb_forall.
    destruct (defined "ZSH_HEAP_DEBUG"); vm_compute; reflexivity.
  - repeat split; vm_compute; reflexivity.
Qed.

(** *** Typedef names *)

(** X7.  No name is declared twice for different things.  [Cmgroup] is
    the one typedef name declared twice, both times as a pointer to
    [struct cmgroup]; typedef names, variables and functions are pairwise
    distinct; each struct tag is defined once, and no struct has two
    members of one name. *)
Theorem names_are_distinct :
  in_zsh_h (fun u =>
    consistent [] (typedef_decls u) = true /\
    filter (fun x => Nat.ltb 1 (count_occ string_dec
                                  (map fst (typedef_decls u)) x))
           (nodup string_dec (map fst (typedef_decls u)))
    = ["Cmgroup"] /\
    NoDup (nodup string_dec (map fst (typedef_decls u))
           ++ variables u ++ functions u) /\
    NoDup (defined_tags u) /\
    Forall (fun tag => NoDup (member_names u tag)) (defined_tags u)).
Proof.
  read_header.
  split; [vm_compute; reflexivity |].
  split; [vm_compute; reflexivity |].
  split; [apply distinct_NoDup; vm_compute; reflexivity |].
  split; [apply distinct_NoDup; vm_compute; reflexivity |].
  apply Forall_forall. intros tag Hin.
  apply distinct_NoDup. revert tag Hin.
  apply forallb_forall.
  destruct (defined "ZSH_HEAP_DEBUG"); vm_compute; reflexivity.
Qed.

(** X8.  Four names are both a variable of the header and a member of
    [struct cmgroup]: [matches], [lmatches], [nbrbeg] and [nbrend].  For
    two of them the types differ: the variable [matches] is a [LinkList]
    and the member a [Cmatch *]; the variable [lmatches] is a [Cmgroup]
    and the member a [LinkList].  The other two structs share no name
    with the variables. *)
Theorem names_shared_with_cmgroup :
  in_zsh_h (fun u =>
    shared_names u "cmgroup"
    = [ ("matches", Some Tsize_t, Some (Tptr (Tptr (Tstruct "cmatch"))));
        ("lmatches", Some (Tptr (Tstruct "cmgroup")), Some Tsize_t);
        ("nbrbeg", Some Tint, Some Tint);
        ("nbrend", Some Tint, Some Tint) ] /\
    shared_names u "cmatch" = [] /\
    shared_names u "menuinfo" = []).
Proof.
  read_header.
  destruct (defined "ZSH_HEAP_DEBUG"); repeat split; vm_compute; reflexivity.
Qed.

(** *** Macro definitions *)

(** X9.  [mod_export] is the one name written as a mark in front of
    declarations, sixteen times, and every use stands below the [#define]
    of the name: reading the header from top to bottom no mark is
    unbound, and with the [#define] line taken out all sixteen are. *)
Theorem mod_export_defined_before_use :
  unbound_from [] zsh_h = [] /\
  unbound_from [] (undefine zsh_h) = repeat "mod_export" 16.
Proof. split; vm_compute; reflexivity. Qed.

(** *** Layout *)

Ltac layout_table :=
  match goal with
  | a : abi, H : size_bits ?a' = _ |- _ =>
      destruct a as [cs lb sb]; simpl in H; subst sb
  end;
  repeat split; vm_compute; reflexivity.

(** X11.  With eight-byte pointers and a 64-bit [size_t], whatever the
    signedness of [char] and the width of [long]: [struct cmatch] and
    [struct cmgroup] take 168 bytes and [struct menuinfo] 56, all aligned
    to 8, with the members at the offsets listed.  There are four bytes of
    padding after [flags] in [cmatch] and after [ecount] and [ccount] in
    [cmgroup], and three after [modec] and [fmodec]. *)
Theorem layout_lp64 (a : abi) :
  size_bits a = 64 ->
  struct_size a 8 plain_unit "cmatch" = Some (168, 8) /\
  struct_size a 8 plain_unit "cmgroup" = Some (168, 8) /\
  struct_size a 8 plain_unit "menuinfo" = Some (56, 8) /\
  offsets a 8 plain_unit "cmatch"
  = Some [ ("str", 0); ("orig", 8); ("ipre", 16); ("ripre", 24);
           ("isuf", 32); ("ppre", 40); ("psuf", 48); ("prpre", 56);
           ("pre", 64); ("suf", 72); ("disp", 80); ("autoq", 88);
           ("flags", 96); ("brpl", 104); ("brsl", 112); ("rems", 120);
           ("remf", 128); ("qipl", 136); ("qisl", 140); ("rnum", 144);
           ("gnum", 148); ("mode", 152); ("modec", 156); ("fmode", 160);
           ("fmodec", 164) ] /\
  offsets a 8 plain_unit "cmgroup"
  = Some [ ("name", 0); ("prev", 8); ("next", 16); ("flags", 24);
           ("mcount", 28); ("matches", 32); ("lcount", 40); ("llcount", 44);
           ("ylist", 48); ("ecount", 56); ("expls", 64); ("ccount", 72);
           ("lexpls", 80); ("lmatches", 88); ("lfmatches", 96);
           ("lallccs", 104); ("num", 112); ("nbrbeg", 116); ("nbrend", 120);
           ("new", 124); ("dcount", 128); ("cols", 132); ("lins", 136);
           ("width", 140); ("widths", 144); ("totl", 152); ("shortest", 156);
           ("perm", 160) ] /\
  offsets a 8 plain_unit "menuinfo"
  = Some [ ("group", 0); ("cur", 8); ("pos", 16); ("len", 20); ("end", 24);
           ("we", 28); ("insc", 32); ("asked", 36); ("prebr", 40);
           ("postbr", 48) ].
Proof. intros H. layout_table. Qed.

Lemma layout_lp64_witness :
  struct_size x86_64 8 plain_unit "cmatch" = Some (168, 8) /\
  struct_size x86_64 8 plain_unit "cmgroup" = Some (168, 8) /\
  struct_size x86_64 8 plain_unit "menuinfo" = Some (56, 8) /\
  offsets x86_64 8 plain_unit "cmatch"
  = Some [ ("str", 0); ("orig", 8); ("ipre", 16); ("ripre", 24);
           ("isuf", 32); ("ppre", 40); ("psuf", 48); ("prpre", 56);
           ("pre", 64); ("suf", 72); ("disp", 80); ("autoq", 88);
           ("flags", 96); ("brpl", 104); ("brsl", 112); ("rems", 120);
           ("remf", 128); ("qipl", 136); ("qisl", 140); ("rnum", 144);
           ("gnum", 148); ("mode", 152); ("modec", 156); ("fmode", 160);
           ("fmodec", 164) ] /\
  offsets x86_64 8 plain_unit "cmgroup"
  = Some [ ("name", 0); ("prev", 8); ("next", 16); ("flags", 24);
           ("mcount", 28); ("matches", 32); ("lcount", 40); ("llcount", 44);
           ("ylist", 48); ("ecount", 56); ("expls", 64); ("ccount", 72);
           ("lexpls", 80); ("lmatches", 88); ("lfmatches", 96);
           ("lallccs", 104); ("num", 112); ("nbrbeg", 116); ("nbrend", 120);
           ("new", 124); ("dcount", 128); ("cols", 132); ("lins", 136);
           ("width", 140); ("widths", 144); ("totl", 152); ("shortest", 156);
           ("perm", 160) ] /\
  offsets x86_64 8 plain_unit "menuinfo"
  = Some [ ("group", 0); ("cur", 8); ("pos", 16); ("len", 20); ("end", 24);
           ("we", 28); ("insc", 32); ("asked", 36); ("prebr", 40);
           ("postbr", 48) ].
Proof. exact (layout_lp64 x86_64 eq_refl). Defined.

(** X12.  With four-byte pointers and a 32-bit [size_t]: [struct cmatch]
    takes 100 bytes, [struct cmgroup] 112 and [struct menuinfo] 40, all
    aligned to 4.  Every member of [cmgroup] and [menuinfo] starts where
    the one before it ends; [cmatch] has three bytes of padding after
    [modec] and after [fmodec]. *)
Theorem layout_ilp32 (a : abi) :
  size_bits a = 32 ->
  struct_size a 4 plain_unit "cmatch" = Some (100, 4) /\
  struct_size a 4 plain_unit "cmgroup" = Some (112, 4) /\
  struct_size a 4 plain_unit "menuinfo" = Some (40, 4) /\
  offsets a 4 plain_unit "cmatch"
  = Some [ ("str", 0); ("orig", 4); ("ipre", 8); ("ripre", 12);
           ("isuf", 16); ("ppre", 20); ("psuf", 24); ("prpre", 28);
           ("pre", 32); ("suf", 36); ("disp", 40); ("autoq", 44);
           ("flags", 48); ("brpl", 52); ("brsl", 56); ("rems", 60);
           ("remf", 64); ("qipl", 68); ("qisl", 72); ("rnum", 76);
           ("gnum", 80); ("mode", 84); ("modec", 88); ("fmode", 92);
           ("fmodec", 96) ] /\
  offsets a 4 plain_unit "cmgroup"
  = Some [ ("name", 0); ("prev", 4); ("next", 8); ("flags", 12);
           ("mcount", 16); ("matches", 20); ("lcount", 24); ("llcount", 28);
           ("ylist", 32); ("ecount", 36); ("expls", 40); ("ccount", 44);
           ("lexpls", 48); ("lmatches", 52); ("lfmatches", 56);
           ("lallccs", 60); ("num", 64); ("nbrbeg", 68); ("nbrend", 72);
           ("new", 76); ("dcount", 80); ("cols", 84); ("lins", 88);
           ("width", 92); ("widths", 96); ("totl", 100); ("shortest", 104);
           ("perm", 108) ] /\
  offsets a 4 plain_unit "menuinfo"
  = Some [ ("group", 0); ("cur", 4); ("pos", 8); ("len", 12); ("end", 16);
           ("we", 20); ("insc", 24); ("asked", 28); ("prebr", 32);
           ("postbr", 36) ].
Proof. intros H. layout_table. Qed.

Lemma layout_ilp32_witness :
  struct_size i386 4 plain_unit "cmatch" = Some (100, 4) /\
  struct_size i386 4 plain_unit "cmgroup" = Some (112, 4) /\
  struct_size i386 4 plain_unit "menuinfo" = Some (40, 4) /\
  offsets i386 4 plain_unit "cmatch"
  = Some [ ("str", 0); ("orig", 4); ("ipre", 8); ("ripre", 12);
           ("isuf", 16); ("ppre", 20); ("psuf", 24); ("prpre", 28);
           ("pre", 32); ("suf", 36); ("disp", 40); ("autoq", 44);
           ("flags", 48); ("brpl", 52); ("brsl", 56); ("rems", 60);
           ("remf", 64); ("qipl", 68); ("qisl", 72); ("rnum", 76);
           ("gnum", 80); ("mode", 84); ("modec", 88); ("fmode", 92);
           ("fmodec", 96) ] /\
  offsets i386 4 plain_unit "cmgroup"
  = Some [ ("name", 0); ("prev", 4); ("next", 8); ("flags", 12);
           ("mcount", 16); ("matches", 20); ("lcount", 24); ("llcount", 28);
           ("ylist", 32); ("ecount", 36); ("expls", 40); ("ccount", 44);
           ("lexpls", 48); ("lmatches", 52); ("lfmatches", 56);
           ("lallccs", 60); ("num", 64); ("nbrbeg", 68); ("nbrend", 72);
           ("new", 76); ("dcount", 80); ("cols", 84); ("lins", 88);
           ("width", 92); ("widths", 96); ("totl", 100); ("shortest", 104);
           ("perm", 108) ] /\
  offsets i386 4 plain_unit "menuinfo"
  = Some [ ("group", 0); ("cur", 4); ("pos", 8); ("len", 12); ("end", 16);
           ("we", 20); ("insc", 24); ("asked", 28); ("prebr", 32);
           ("postbr", 36) ].
Proof. exact (layout_ilp32 i386 eq_refl). Defined.
